(** * The localized legal-text selector of the blog

    A shallow embedding of [src/components/Legal.tsx] and of the pages that
    mount it ([src/app/legal-notice/page.tsx] and its sibling variants),
    together with the properties of the language toggle.

    TypeScript types are erased when the component runs, so values are
    modelled as the JavaScript runtime has them: language codes and slugs
    are strings, [legalTexts.find] yields a document or [undefined], and the
    TypeScript union ['de' | 'en'] is a predicate on strings. *)

From Stdlib Require Import Ascii.
From stdpp Require Import base option list strings gmap.

(** ** Data model *)

(** The [body] of a generated document; the component reads [body.code]. *)
Record MDX := mkMDX { code : string }.

(** A [LegalNotice] of [contentlayer/generated], with the fields the
    component reads: [slug] (the language code) and [body]. *)
Record LegalNotice := mkLegalNotice { slug : string; body : MDX }.

(** [interface LegalProps { legalTexts: LegalNotice[] }] *)
Record LegalProps := mkLegalProps { legalTexts : list LegalNotice }.

(** [type LegalLanguages = 'de' | 'en'], as a predicate on runtime strings. *)
Definition LegalLanguages (s : string) : Prop := s = "de" ∨ s = "en".

(** The cell allocated by [useState<LegalLanguages>('en')]. *)
Record State := mkState { language : string }.

(** The values an expression of type [string | undefined] evaluates to. *)
Inductive JsValue :=
| undefined
| JsString (s : string).

(** What an [onClick] closure of the component does when it is called:
    [() => setLanguage(value)]. *)
Inductive Handler :=
| SetLanguage (value : string).

(** The JSX tree the component returns. *)
#[warnings="-register-all"]
Inductive Element :=
| Fragment (children : list Element)
| div (className : string) (children : list Element)
| button (onClick : Handler) (className : string) (label : string)
| MDXLayoutRenderer (code_prop : JsValue).

(** A language control, as found in a rendered tree. *)
Record Control := mkControl {
  control_onClick : Handler;
  control_className : string;
  control_label : string
}.

(** ** JavaScript primitives used by the component *)

(** [Array.prototype.find]: the first element the callback accepts, in
    index order, or [undefined]. *)
Fixpoint Array_find {A : Type} (callback : A → bool) (array : list A) : option A :=
  match array with
  | [] => None
  | x :: rest => if callback x then Some x else Array_find callback rest
  end.

(** [legalText?.body.code]: [undefined] when [legalText] is [undefined]. *)
Definition optional_body_code (legalText : option LegalNotice) : JsValue :=
  match legalText with
  | None => undefined
  | Some text => JsString (code (body text))
  end.

(** Truthiness of a [string | undefined]: the empty string and [undefined]
    are falsy. *)
Definition truthy (v : JsValue) : bool :=
  match v with
  | undefined => false
  | JsString s => negb (String.eqb s "")
  end.

(** [a || b] *)
Definition js_or (a b : JsValue) : JsValue := if truthy a then a else b.

(** The class tokens of a [className] attribute: its maximal runs of
    characters other than the space. *)
Fixpoint class_tokens_from (current : string) (s : string) : list string :=
  match s with
  | EmptyString => if String.eqb current "" then [] else [current]
  | String c rest =>
      if Ascii.eqb c " "%char
      then (if String.eqb current "" then [] else [current]) ++ class_tokens_from "" rest
      else class_tokens_from (current +:+ String c EmptyString) rest
  end.

Definition classList (className : string) : list string :=
  class_tokens_from "" className.

(** ** The component *)

Definition initialState : State := {| language := "en" |}.

(** The setter returned by [useState]: it replaces the cell's value. *)
Definition setLanguage (value : string) (st : State) : State :=
  {| language := value |}.

Definition fire (h : Handler) (st : State) : State :=
  match h with
  | SetLanguage value => setLanguage value st
  end.

(** [legalTexts.find((text) => text.slug === language)] *)
Definition legalText (legalTexts : list LegalNotice) (language : string)
  : option LegalNotice :=
  Array_find (λ text, String.eqb (slug text) language) legalTexts.

(** [(lang) => language === lang ? 'text-primary-500' : ''] *)
Definition conditionalButtonStyles (language : string) (lang : string) : string :=
  if String.eqb language lang then "text-primary-500" else "".

(** [legalText?.body.code || ''], the [code] prop of the renderer. *)
Definition rendered_code (legalTexts : list LegalNotice) (language : string)
  : JsValue :=
  js_or (optional_body_code (legalText legalTexts language)) (JsString "").

(** One render of [Legal] with props [legalTexts] and hook cell [st]. *)
Definition Legal (legalTexts : list LegalNotice) (st : State) : Element :=
  let language := language st in
  Fragment
    [ div "mb-8 flex"
        [ button (SetLanguage "de")
            ("mr-4 text-xl transition-all hover:text-primary-500 "
               +:+ conditionalButtonStyles language "de")
            "DE";
          button (SetLanguage "en")
            ("text-xl transition-all hover:text-primary-500 "
               +:+ conditionalButtonStyles language "en")
            "EN" ];
      div "prose dark:prose-invert"
        [ MDXLayoutRenderer (rendered_code legalTexts language) ] ].


(** ** Reading a rendered tree *)

(** The buttons of a tree, in document order. *)
Fixpoint controls (e : Element) : list Control :=
  match e with
  | Fragment children => flat_map controls children
  | div _ children => flat_map controls children
  | button h c l => [mkControl h c l]
  | MDXLayoutRenderer _ => []
  end.

(** The [code] props handed to the content renderer, in document order. *)
Fixpoint renderer_inputs (e : Element) : list JsValue :=
  match e with
  | Fragment children => flat_map renderer_inputs children
  | div _ children => flat_map renderer_inputs children
  | button _ _ _ => []
  | MDXLayoutRenderer c => [c]
  end.

(** Rendering a tree with a content renderer that returns its output or
    raises an error. [Legal] puts no guard around [MDXLayoutRenderer], so
    an error raised by the renderer ends the render of the whole tree;
    otherwise the outputs of the renderers are collected in document
    order. *)
Fixpoint render_with {Out : Type} (renderer : JsValue → Out + string)
    (e : Element) : list Out + string :=
  let render_children :=
    fix go (es : list Element) : list Out + string :=
      match es with
      | [] => inl []
      | child :: rest =>
          match render_with renderer child with
          | inr error => inr error
          | inl outs =>
              match go rest with
              | inr error => inr error
              | inl outs' => inl (outs ++ outs')
              end
          end
      end in
  match e with
  | Fragment children => render_children children
  | div _ children => render_children children
  | button _ _ _ => inl []
  | MDXLayoutRenderer c =>
      match renderer c with
      | inl out => inl [out]
      | inr error => inr error
      end
  end.

(** A sample content renderer that raises on a [code] prop that holds no
    program, the empty string or [undefined], and returns any other code. *)
Definition strict_renderer (code_prop : JsValue) : string + string :=
  match code_prop with
  | undefined => inr "TypeError"
  | JsString s => if String.eqb s "" then inr "TypeError" else inl s
  end.

(** The language a control selects when clicked. *)
Definition control_language (b : Control) : string :=
  match control_onClick b with
  | SetLanguage value => value
  end.

(** A control is visually marked when its class list holds the token
    [text-primary-500]. *)
Definition marked (b : Control) : bool :=
  bool_decide ("text-primary-500" ∈ classList (control_className b)).

(** ** One mounted instance as a state machine *)

(** A click on the [k]-th control of the current view runs that control's
    [onClick]; where the view has no such control nothing happens. *)
Definition click (legalTexts : list LegalNotice) (k : nat) (st : State) : State :=
  match controls (Legal legalTexts st) !! k with
  | Some b => fire (control_onClick b) st
  | None => st
  end.

Fixpoint clicks (legalTexts : list LegalNotice) (ks : list nat) (st : State) : State :=
  match ks with
  | [] => st
  | k :: rest => clicks legalTexts rest (click legalTexts k st)
  end.

(** The states an instance can be in: the initial one, and any state a
    control of the current view leads to. *)
Inductive reachable (legalTexts : list LegalNotice) : State → Prop :=
| reachable_initial : reachable legalTexts initialState
| reachable_click st b :
    reachable legalTexts st →
    b ∈ controls (Legal legalTexts st) →
    reachable legalTexts (fire (control_onClick b) st).

(** ** The pages *)

(** [src/app/legal-notice/page.tsx]: [<Legal legalTexts={allLegalNotices} />].
    The returned element is identified with the props it carries. *)
Definition Page (allLegalNotices : list LegalNotice) : LegalProps :=
  {| legalTexts := allLegalNotices |}.

(** The variant of the legal-notice page that first looks up the German and
    the English notice ([as LegalNotice] is a type assertion and does
    nothing at run time). *)
Definition Page_with_lookups (allLegalNotices : list LegalNotice) : LegalProps :=
  let legalNoticeDE := Array_find (λ p, String.eqb (slug p) "de") allLegalNotices in
  let legalNoticeEN := Array_find (λ p, String.eqb (slug p) "en") allLegalNotices in
  {| legalTexts := allLegalNotices |}.

(** Mounting the element a page returns: the first render of the instance. *)
Definition mount (props : LegalProps) : State := initialState.

(** What the user sees of a page after a series of clicks. *)
Definition page_view (props : LegalProps) (ks : list nat) : Element :=
  Legal (legalTexts props) (clicks (legalTexts props) ks (mount props)).

(** ** Several instances over a shared heap *)

(** A mounted instance keeps its [legalTexts] prop, which is a reference to
    an array on the heap, and its own hook cell. *)
Record Instance := mkInstance { props_ref : nat; cell : State }.

(** Arrays live on the heap and are shared by reference; hook cells are
    kept per instance. *)
Record World := mkWorld {
  arrays : gmap nat (list LegalNotice);
  instances : gmap nat Instance
}.

Inductive Action :=
| Mount (i : nat) (ref : nat)
| Click (i : nat) (k : nat)
| Unmount (i : nat).

Definition target (a : Action) : nat :=
  match a with
  | Mount i _ => i
  | Click i _ => i
  | Unmount i => i
  end.

(** The current view of instance [i], when it is mounted on an array that
    exists. *)
Definition view (w : World) (i : nat) : option Element :=
  match instances w !! i with
  | Some inst =>
      match arrays w !! props_ref inst with
      | Some docs => Some (Legal docs (cell inst))
      | None => None
      end
  | None => None
  end.

Definition perform (a : Action) (w : World) : World :=
  match a with
  | Mount i ref =>
      {| arrays := arrays w;
         instances := <[i := {| props_ref := ref; cell := initialState |}]> (instances w) |}
  | Click i k =>
      match instances w !! i with
      | Some inst =>
          match arrays w !! props_ref inst with
          | Some docs =>
              {| arrays := arrays w;
                 instances :=
                   <[i := {| props_ref := props_ref inst;
                             cell := click docs k (cell inst) |}]> (instances w) |}
          | None => w
          end
      | None => w
      end
  | Unmount i =>
      {| arrays := arrays w; instances := delete i (instances w) |}
  end.

Fixpoint run (actions : list Action) (w : World) : World :=
  match actions with
  | [] => w
  | a :: rest => run rest (perform a w)
  end.

(** ** The specification's reading of the language controls *)

(** The distinct language codes of a document set, in order of first
    appearance. *)
Definition distinct_language_codes (legalTexts : list LegalNotice) : list string :=
  remove_dups (slug <$> legalTexts).

(** One control per distinct language code of the document set. *)
Definition one_control_per_language_code
    (legalTexts : list LegalNotice) (st : State) : Prop :=
  control_language <$> controls (Legal legalTexts st)
    ≡ₚ distinct_language_codes legalTexts.

(** ** Sample documents *)

Definition doc_en : LegalNotice := {| slug := "en"; body := {| code := "Hello" |} |}.
Definition doc_de : LegalNotice := {| slug := "de"; body := {| code := "Hallo" |} |}.
Definition doc_en' : LegalNotice := {| slug := "en"; body := {| code := "Hello again" |} |}.
Definition doc_blank : LegalNotice := {| slug := "en"; body := {| code := "" |} |}.
Definition sample : list LegalNotice := [doc_en; doc_de].
Definition twice_en : list LegalNotice := [doc_en; doc_en'].

(** A page with two instances on one shared array, the first of which was
    switched to German and back, and another page with a single instance. *)
Definition world_a : World :=
  run [Mount 0 5; Mount 1 5; Click 0 0; Click 0 1; Click 1 0]
    {| arrays := {[ 5 := sample ]}; instances := ∅ |}.

Definition world_b : World :=
  run [Mount 7 3] {| arrays := {[ 3 := sample ]}; instances := ∅ |}.

(** ** The privacy-policy page *)

(** The privacy-policy page: [<Legal legalTexts={allPrivacyPolicies} />]. *)
Definition Page_privacy_policy (allPrivacyPolicies : list LegalNotice) : LegalProps :=
  {| legalTexts := allPrivacyPolicies |}.

(** The clicks of a series that land on a control: the view has the two
    controls [0] and [1]. *)
Definition hits (ks : list nat) : list nat :=
  filter (λ k, k < 2) ks.

(** The language a control index stands for. *)
Definition language_of_index (k : nat) : string :=
  match k with
  | 0 => "de"
  | _ => "en"
  end.

(** * Properties *)

Example classList_ex :
  classList "mr-4 text-xl transition-all hover:text-primary-500 text-primary-500"
  = ["mr-4"; "text-xl"; "transition-all"; "hover:text-primary-500"; "text-primary-500"].
Proof. reflexivity. Qed.

Example classList_trailing_space :
  classList "text-xl transition-all hover:text-primary-500 "
  = ["text-xl"; "transition-all"; "hover:text-primary-500"].
Proof. reflexivity. Qed.

(** The example of the specification: [Hello] by default, [Hallo] after
    German is selected, nothing after a language without a document. *)
Example sample_default : rendered_code sample (language initialState) = JsString "Hello".
Proof. reflexivity. Qed.

Example sample_de :
  rendered_code sample (language (setLanguage "de" initialState)) = JsString "Hallo".
Proof. reflexivity. Qed.

Example sample_fr :
  rendered_code sample (language (setLanguage "fr" initialState)) = JsString "".
Proof. reflexivity. Qed.

Example sample_click_de :
  renderer_inputs (Legal sample (click sample 0 initialState)) = [JsString "Hallo"].
Proof. reflexivity. Qed.

(** ** [Array.prototype.find] *)

Section find.
Context {A : Type} (callback : A → bool).

Lemma Array_find_app_skip (before rest : list A) :
  (∀ y, y ∈ before → callback y = false) →
  Array_find callback (before ++ rest) = Array_find callback rest.
Proof.
  induction before as [|y before IH]; intros Hskip; simpl; [done|].
  rewrite (Hskip y) by left.
  apply IH. intros z Hz. apply Hskip. by right.
Qed.

Lemma Array_find_split (array : list A) (x : A) :
  Array_find callback array = Some x →
  ∃ before after,
    array = before ++ x :: after ∧
    callback x = true ∧
    ∀ y, y ∈ before → callback y = false.
Proof.
  induction array as [|a array IH]; simpl; [done|].
  destruct (callback a) eqn:Ha.
  - intros [= ->]. exists [], array. split_and!; [done..|].
    intros y Hy. by apply elem_of_nil in Hy.
  - intros (before & after & -> & Hx & Hskip)%IH.
    exists (a :: before), after. split_and!; [done..|].
    intros y [->|Hy]%elem_of_cons; auto.
Qed.

Lemma Array_find_first (before after : list A) (x : A) :
  callback x = true →
  (∀ y, y ∈ before → callback y = false) →
  Array_find callback (before ++ x :: after) = Some x.
Proof.
  intros Hx Hskip. rewrite Array_find_app_skip by done.
  simpl. by rewrite Hx.
Qed.

Lemma Array_find_None (array : list A) :
  Array_find callback array = None ↔ ∀ y, y ∈ array → callback y = false.
Proof.
  induction array as [|a array IH]; simpl.
  - split; [|done]. intros _ y Hy. by apply elem_of_nil in Hy.
  - destruct (callback a) eqn:Ha.
    + split; [done|]. intros Hall.
      specialize (Hall a (list_elem_of_here _ _)). congruence.
    + rewrite IH. split.
      * intros Hall y [->|Hy]%elem_of_cons; auto.
      * intros Hall y Hy. apply Hall. by right.
Qed.
End find.

(** ** Resolution *)

Lemma legalText_Some legalTexts language text :
  legalText legalTexts language = Some text ↔
  ∃ before after,
    legalTexts = before ++ text :: after ∧
    slug text = language ∧
    ∀ earlier, earlier ∈ before → slug earlier ≠ language.
Proof.
  unfold legalText. split.
  - intros (before & after & -> & Hx & Hskip)%Array_find_split.
    exists before, after. split_and!; [done| by apply String.eqb_eq |].
    intros y Hy. by apply String.eqb_neq, Hskip.
  - intros (before & after & -> & Hx & Hskip).
    apply Array_find_first; [by apply String.eqb_eq|].
    intros y Hy. by apply String.eqb_neq, Hskip.
Qed.

Lemma legalText_None legalTexts language :
  legalText legalTexts language = None ↔
  ∀ text, text ∈ legalTexts → slug text ≠ language.
Proof.
  unfold legalText. rewrite Array_find_None. split.
  - intros Hall y Hy. by apply String.eqb_neq, Hall.
  - intros Hall y Hy. by apply String.eqb_neq, Hall.
Qed.

Lemma legalText_absent legalTexts language :
  language ∉ (slug <$> legalTexts) → legalText legalTexts language = None.
Proof.
  intros Habsent. apply legalText_None. intros text Hin <-.
  apply Habsent. by apply list_elem_of_fmap_2.
Qed.

(** C1. For every document set and every current language, the lookup
    [legalTexts.find((text) => text.slug === language)] returns the first
    entry whose [slug] equals the language: the returned entry sits in the
    array behind a prefix in which no [slug] matches. It returns
    [undefined] exactly when no entry matches. *)
Theorem C1_legalText_first_match (legalTexts : list LegalNotice) (language : string) :
  (∀ text,
     legalText legalTexts language = Some text ↔
     ∃ before after,
       legalTexts = before ++ text :: after ∧
       slug text = language ∧
       ∀ earlier, earlier ∈ before → slug earlier ≠ language)
  ∧ (legalText legalTexts language = None ↔
     ∀ text, text ∈ legalTexts → slug text ≠ language).
Proof.
  split.
  - intros text. apply legalText_Some.
  - apply legalText_None.
Qed.

(** ** Rendering *)

Lemma Legal_controls legalTexts st :
  controls (Legal legalTexts st) =
  [ mkControl (SetLanguage "de")
      ("mr-4 text-xl transition-all hover:text-primary-500 "
         +:+ conditionalButtonStyles (language st) "de") "DE";
    mkControl (SetLanguage "en")
      ("text-xl transition-all hover:text-primary-500 "
         +:+ conditionalButtonStyles (language st) "en") "EN" ].
Proof. reflexivity. Qed.

Lemma Legal_renderer_inputs legalTexts st :
  renderer_inputs (Legal legalTexts st) = [rendered_code legalTexts (language st)].
Proof. reflexivity. Qed.

Lemma rendered_code_undefined legalTexts language :
  legalText legalTexts language = None →
  rendered_code legalTexts language = JsString "".
Proof. unfold rendered_code. by intros ->. Qed.

Lemma rendered_code_Some legalTexts language text :
  legalText legalTexts language = Some text →
  rendered_code legalTexts language = JsString (code (body text)).
Proof.
  unfold rendered_code, js_or. intros ->. simpl.
  destruct (String.eqb_spec (code (body text)) "") as [->|_]; done.
Qed.

Lemma rendered_code_is_string legalTexts language :
  ∃ s, rendered_code legalTexts language = JsString s.
Proof.
  destruct (legalText legalTexts language) as [text|] eqn:Hfind.
  - eexists. by apply rendered_code_Some.
  - eexists. by apply rendered_code_undefined.
Qed.




Example render_sample_default :
  render_with strict_renderer (Legal sample initialState) = inl ["Hello"].
Proof. reflexivity. Qed.

Example render_empty_set_raises :
  render_with strict_renderer (Legal [] initialState) = inr "TypeError".
Proof. reflexivity. Qed.

Example render_after_click_on_DE_raises :
  render_with strict_renderer (Legal [doc_en] (click [doc_en] 0 initialState))
  = inr "TypeError".
Proof. reflexivity. Qed.

(** ** The default language *)

(** C3, as stated, fails when two documents carry the code [en]: the
    second one is a document of the set with language code [en], and the
    lookup in the initial state returns the first one instead. *)
Lemma C3_counterexample :
  doc_en' ∈ twice_en
  ∧ slug doc_en' = "en"
  ∧ legalText twice_en (language initialState) = Some doc_en
  ∧ legalText twice_en (language initialState) ≠ Some doc_en'.
Proof.
  split_and!; [|done|done|done].
  right. left.
Qed.

(** C3, amended. For every document set that contains a document [d] whose
    language code is [en], the lookup in the initial state returns the
    first document whose code is [en], because the state starts at [en];
    that document is [d] whenever [d] is the only [en] document. *)
Theorem C3_default_resolves_first_en (legalTexts : list LegalNotice) (d : LegalNotice) :
  d ∈ legalTexts →
  slug d = "en" →
  language initialState = "en"
  ∧ ∃ before first after,
      legalTexts = before ++ first :: after
      ∧ slug first = "en"
      ∧ (∀ earlier, earlier ∈ before → slug earlier ≠ "en")
      ∧ legalText legalTexts (language initialState) = Some first
      ∧ ((∀ other, other ∈ legalTexts → slug other = "en" → other = d) →
         first = d).
Proof.
  intros Hin Hslug. split; [done|].
  destruct (legalText legalTexts (language initialState)) as [first|] eqn:Hfind.
  - pose proof Hfind as (before & after & Heq & Hfirst & Hskip)%legalText_Some.
    exists before, first, after. split_and!; [done..|].
    intros Honly. apply Honly; [|done].
    rewrite Heq. apply elem_of_app. right. left.
  - exfalso. by apply (proj1 (legalText_None _ _) Hfind d Hin).
Qed.

Lemma C3_default_witness :
  doc_en ∈ sample
  ∧ slug doc_en = "en"
  ∧ language initialState = "en"
  ∧ ∃ before first after,
      sample = before ++ first :: after
      ∧ slug first = "en"
      ∧ (∀ earlier, earlier ∈ before → slug earlier ≠ "en")
      ∧ legalText sample (language initialState) = Some first
      ∧ ((∀ other, other ∈ sample → slug other = "en" → other = doc_en) →
         first = doc_en).
Proof.
  assert (Hin : doc_en ∈ sample) by left.
  assert (Hslug : slug doc_en = "en") by reflexivity.
  split; [exact Hin|]. split; [exact Hslug|].
  exact (C3_default_resolves_first_en sample doc_en Hin Hslug).
Defined.

(** ** Switching back and forth *)

(** C4. For every document set, selecting German and then English from the
    initial state resolves the same document as the initial state did, and
    renders the same view; the same holds when the two selections are made
    by clicking the first and then the second control. *)
Theorem C4_de_then_en_round_trip (legalTexts : list LegalNotice) :
  legalText legalTexts (language (setLanguage "en" (setLanguage "de" initialState)))
    = legalText legalTexts (language initialState)
  ∧ Legal legalTexts (setLanguage "en" (setLanguage "de" initialState))
    = Legal legalTexts initialState
  ∧ clicks legalTexts [0; 1] initialState
    = setLanguage "en" (setLanguage "de" initialState).
Proof. split_and!; reflexivity. Qed.

(** ** The reachable languages *)

Lemma Legal_control_languages legalTexts st b :
  b ∈ controls (Legal legalTexts st) → LegalLanguages (control_language b).
Proof.
  rewrite Legal_controls.
  intros [->|[->|Hnil%elem_of_nil]%elem_of_cons]%elem_of_cons;
    [by left|by right|done].
Qed.

Lemma click_reachable legalTexts k st :
  reachable legalTexts st → reachable legalTexts (click legalTexts k st).
Proof.
  intros Hst. unfold click.
  destruct (controls (Legal legalTexts st) !! k) as [b|] eqn:Hk; [|done].
  apply reachable_click; [done|].
  by apply list_elem_of_lookup_2 with k.
Qed.

Lemma clicks_reachable legalTexts ks st :
  reachable legalTexts st → reachable legalTexts (clicks legalTexts ks st).
Proof.
  revert st. induction ks as [|k ks IH]; intros st Hst; simpl; [done|].
  by apply IH, click_reachable.
Qed.

(** C9. The selected language of every reachable state is ['de'] or
    ['en']: the state starts at ['en'], and each control of the current
    view sets it to ['de'] or to ['en'], so no other code can be selected
    through the controls. *)
Theorem C9_language_in_LegalLanguages (legalTexts : list LegalNotice) (st : State) :
  reachable legalTexts st →
  LegalLanguages (language st)
  ∧ ∀ b, b ∈ controls (Legal legalTexts st) →
         LegalLanguages (language (fire (control_onClick b) st)).
Proof.
  intros Hst. split.
  - induction Hst as [|st b _ _ Hb].
    + by right.
    + apply Legal_control_languages in Hb.
      destruct b as [[value] ? ?]. exact Hb.
  - intros b Hb. apply Legal_control_languages in Hb.
    destruct b as [[value] ? ?]. exact Hb.
Qed.

Lemma C9_language_witness :
  reachable sample (clicks sample [0; 1; 0] initialState)
  ∧ LegalLanguages (language (clicks sample [0; 1; 0] initialState))
  ∧ ∀ b, b ∈ controls (Legal sample (clicks sample [0; 1; 0] initialState)) →
         LegalLanguages
           (language (fire (control_onClick b) (clicks sample [0; 1; 0] initialState))).
Proof.
  assert (Hreach : reachable sample (clicks sample [0; 1; 0] initialState)).
  { apply clicks_reachable. constructor. }
  split; [exact Hreach|].
  exact (C9_language_in_LegalLanguages sample _ Hreach).
Defined.

(** ** The language controls *)

(** C6, as stated, fails: the controls do not follow the language codes of
    the document set. The empty set has no language code, and its view
    still has the two controls. *)
Lemma C6_counterexample :
  distinct_language_codes [] = []
  ∧ control_language <$> controls (Legal [] initialState) = ["de"; "en"]
  ∧ ¬ one_control_per_language_code [] initialState.
Proof.
  split_and!; [done..|].
  unfold one_control_per_language_code.
  intros Hperm%Permutation_length. discriminate Hperm.
Qed.

Lemma append_empty_r (s : string) : s +:+ "" = s.
Proof.
  induction s as [|c s IH]; [done|].
  change (String c (s +:+ "") = String c s). by rewrite IH.
Qed.

Lemma marked_conditional (base language lang : string) :
  "text-primary-500" ∉ classList base →
  "text-primary-500" ∈ classList (base +:+ "text-primary-500") →
  marked (mkControl (SetLanguage lang) (base +:+ conditionalButtonStyles language lang) "")
  = true ↔ lang = language.
Proof.
  intros Hbase Happended. unfold marked, conditionalButtonStyles. simpl.
  rewrite bool_decide_eq_true.
  destruct (String.eqb_spec language lang) as [->|Hne].
  - done.
  - split; [|congruence].
    intros Hin. exfalso. apply Hbase. by rewrite append_empty_r in Hin.
Qed.

(** C6, amended. For every document set and every state, the view has
    exactly two language controls, one for ['de'] and one for ['en'] in
    this order, whatever the document set holds; and a control carries the
    class [text-primary-500] if and only if its language is the selected
    one. *)
Theorem C6_two_controls_active_marked (legalTexts : list LegalNotice) (st : State) :
  control_language <$> controls (Legal legalTexts st) = ["de"; "en"]
  ∧ control_label <$> controls (Legal legalTexts st) = ["DE"; "EN"]
  ∧ ∀ b, b ∈ controls (Legal legalTexts st) →
         (marked b = true ↔ control_language b = language st).
Proof.
  split_and!; [done..|].
  rewrite Legal_controls.
  intros b [->|[->|Hnil%elem_of_nil]%elem_of_cons]%elem_of_cons; [| |done].
  - apply (marked_conditional
             "mr-4 text-xl transition-all hover:text-primary-500 " (language st) "de").
    + apply (bool_decide_unpack _). by vm_compute.
    + apply (bool_decide_unpack _). by vm_compute.
  - apply (marked_conditional
             "text-xl transition-all hover:text-primary-500 " (language st) "en").
    + apply (bool_decide_unpack _). by vm_compute.
    + apply (bool_decide_unpack _). by vm_compute.
Qed.

Example initial_marking :
  marked <$> controls (Legal sample initialState) = [false; true].
Proof. by vm_compute. Qed.

Example german_marking :
  marked <$> controls (Legal sample (setLanguage "de" initialState)) = [true; false].
Proof. by vm_compute. Qed.

(** ** What the content renderer receives *)

(** C10. For the empty document set and every state the lookup yields
    [undefined] and the renderer is handed exactly the empty string; the
    renderer is also handed the empty string whenever the resolved
    document's [body.code] is empty; and for every document set and state
    the renderer is handed a string, never [undefined]. *)
Theorem C10_renderer_never_undefined :
  (∀ st : State,
     legalText [] (language st) = None
     ∧ renderer_inputs (Legal [] st) = [JsString ""])
  ∧ (∀ (legalTexts : list LegalNotice) (st : State) (text : LegalNotice),
       legalText legalTexts (language st) = Some text →
       code (body text) = "" →
       renderer_inputs (Legal legalTexts st) = [JsString ""])
  ∧ (∀ (legalTexts : list LegalNotice) (st : State),
       ∃ s : string,
         renderer_inputs (Legal legalTexts st) = [JsString s]
         ∧ undefined ∉ renderer_inputs (Legal legalTexts st)).
Proof.
  split_and!.
  - intros st. by split.
  - intros legalTexts st text Hfind Hblank.
    rewrite Legal_renderer_inputs, (rendered_code_Some _ _ _ Hfind).
    by rewrite Hblank.
  - intros legalTexts st. rewrite Legal_renderer_inputs.
    destruct (rendered_code_is_string legalTexts (language st)) as [s ->].
    exists s. split; [done|].
    intros [Heq|Hnil%elem_of_nil]%elem_of_cons; [discriminate Heq|done].
Qed.

Lemma C10_blank_body_witness :
  legalText [doc_de; doc_blank] (language initialState) = Some doc_blank
  ∧ code (body doc_blank) = ""
  ∧ renderer_inputs (Legal [doc_de; doc_blank] initialState) = [JsString ""].
Proof.
  assert (Hfind : legalText [doc_de; doc_blank] (language initialState) = Some doc_blank)
    by reflexivity.
  assert (Hblank : code (body doc_blank) = "") by reflexivity.
  split; [exact Hfind|]. split; [exact Hblank|].
  exact (proj1 (proj2 C10_renderer_never_undefined)
           [doc_de; doc_blank] initialState doc_blank Hfind Hblank).
Defined.

(** ** The two variants of the legal-notice page *)

(** C8. The page variant that looks up the German and the English notice
    never uses the two results: it returns the same element as the variant
    without the lookups, with the whole collection as [legalTexts], so the
    two pages show the same view after every series of clicks. *)
Theorem C8_page_variants_equivalent (allLegalNotices : list LegalNotice) :
  Page_with_lookups allLegalNotices = Page allLegalNotices
  ∧ legalTexts (Page_with_lookups allLegalNotices) = allLegalNotices
  ∧ ∀ ks : list nat,
      page_view (Page_with_lookups allLegalNotices) ks
      = page_view (Page allLegalNotices) ks.
Proof. split_and!; reflexivity. Qed.

(** ** Instances and the heap *)

Lemma perform_arrays (a : Action) (w : World) : arrays (perform a w) = arrays w.
Proof.
  destruct a as [i ref|i k|i]; simpl; [done| |done].
  destruct (instances w !! i) as [inst|]; [|done].
  by destruct (arrays w !! props_ref inst).
Qed.

Lemma perform_other (a : Action) (w : World) (i : nat) :
  target a ≠ i → instances (perform a w) !! i = instances w !! i.
Proof.
  destruct a as [j ref|j k|j]; simpl; intros Hne.
  - by rewrite lookup_insert_ne.
  - destruct (instances w !! j) as [inst|]; [|done].
    destruct (arrays w !! props_ref inst); [|done].
    simpl. by rewrite lookup_insert_ne.
  - by rewrite lookup_delete_ne.
Qed.

Lemma view_Some (w : World) (i : nat) (inst : Instance) (docs : list LegalNotice) :
  instances w !! i = Some inst →
  arrays w !! props_ref inst = Some docs →
  view w i = Some (Legal docs (cell inst)).
Proof. unfold view. by intros -> ->. Qed.

(** C7. No action on the instances changes the heap of arrays: after any
    sequence of mounts, clicks and unmounts every array, and so every
    document in it, is what it was; and reading a view does not produce a
    new world at all. *)
Theorem C7_document_set_never_mutated (actions : list Action) (w : World) :
  arrays (run actions w) = arrays w
  ∧ ∀ (ref : nat) (docs : list LegalNotice),
      arrays w !! ref = Some docs → arrays (run actions w) !! ref = Some docs.
Proof.
  assert (Hrun : arrays (run actions w) = arrays w).
  { revert w. induction actions as [|a actions IH]; intros w; simpl; [done|].
    by rewrite IH, perform_arrays. }
  split; [done|]. intros ref docs Hdocs. by rewrite Hrun.
Qed.

(** C5. The view of an instance is determined by its document set and its
    selected language: two instances, in the same world or in different
    ones, with equal document sets and equal languages render the same
    tree and hand the same body to the renderer; and an action aimed at
    another instance leaves the view unchanged. *)
Theorem C5_render_pure
    (w1 w2 : World) (i1 i2 : nat) (inst1 inst2 : Instance)
    (docs : list LegalNotice) :
  instances w1 !! i1 = Some inst1 →
  instances w2 !! i2 = Some inst2 →
  arrays w1 !! props_ref inst1 = Some docs →
  arrays w2 !! props_ref inst2 = Some docs →
  language (cell inst1) = language (cell inst2) →
  view w1 i1 = view w2 i2
  ∧ view w1 i1 = Some (Legal docs (cell inst1))
  ∧ renderer_inputs (Legal docs (cell inst1))
    = [rendered_code docs (language (cell inst2))]
  ∧ ∀ a : Action, target a ≠ i1 → view (perform a w1) i1 = view w1 i1.
Proof.
  intros Hi1 Hi2 Hdocs1 Hdocs2 Hlang.
  rewrite (view_Some _ _ _ _ Hi1 Hdocs1), (view_Some _ _ _ _ Hi2 Hdocs2).
  assert (Hcell : cell inst1 = cell inst2).
  { destruct (cell inst1), (cell inst2). simpl in Hlang. by subst. }
  split_and!.
  - by rewrite Hcell.
  - done.
  - by rewrite Legal_renderer_inputs, Hlang.
  - intros a Hne. unfold view.
    by rewrite (perform_other _ _ _ Hne), perform_arrays, Hi1, Hdocs1.
Qed.

Lemma C5_render_pure_witness :
  let inst1 := {| props_ref := 5; cell := {| language := "en" |} |} in
  let inst2 := {| props_ref := 3; cell := {| language := "en" |} |} in
  view world_a 0 = view world_b 7
  ∧ view world_a 0 = Some (Legal sample (cell inst1))
  ∧ renderer_inputs (Legal sample (cell inst1))
    = [rendered_code sample (language (cell inst2))]
  ∧ ∀ a : Action, target a ≠ 0 → view (perform a world_a) 0 = view world_a 0.
Proof.
  intros inst1 inst2.
  apply (C5_render_pure world_a world_b 0 7 inst1 inst2 sample).
  - by vm_compute.
  - by vm_compute.
  - by vm_compute.
  - by vm_compute.
  - reflexivity.
Defined.

Example world_a_views :
  (renderer_inputs <$> view world_a 0) = Some [JsString "Hello"]
  ∧ (renderer_inputs <$> view world_a 1) = Some [JsString "Hallo"]
  ∧ arrays world_a = {[ 5 := sample ]}.
Proof. split_and!; by vm_compute. Qed.

(** * Further properties of the selector *)

(** ** Resolution over document sets *)

Lemma slug_unique (legalTexts : list LegalNotice) (d e : LegalNotice) :
  NoDup (slug <$> legalTexts) →
  d ∈ legalTexts → e ∈ legalTexts → slug d = slug e → d = e.
Proof.
  induction legalTexts as [|a rest IH]; simpl; intros Hnodup Hd He Hslug.
  - by apply elem_of_nil in Hd.
  - apply NoDup_cons in Hnodup as [Hfresh Hnodup].
    apply elem_of_cons in Hd as [->|Hd]; apply elem_of_cons in He as [->|He].
    + done.
    + exfalso. apply Hfresh. rewrite Hslug. by apply list_elem_of_fmap_2.
    + exfalso. apply Hfresh. rewrite <- Hslug. by apply list_elem_of_fmap_2.
    + by apply IH.
Qed.

Lemma legalText_elem_of legalTexts language text :
  legalText legalTexts language = Some text →
  text ∈ legalTexts ∧ slug text = language.
Proof.
  intros (before & after & -> & Hslug & _)%legalText_Some. split; [|done].
  apply elem_of_app. right. left.
Qed.

Lemma legalText_unique legalTexts language d :
  NoDup (slug <$> legalTexts) →
  d ∈ legalTexts → slug d = language →
  legalText legalTexts language = Some d.
Proof.
  intros Hnodup Hd Hslug.
  destruct (legalText legalTexts language) as [first|] eqn:Hfind.
  - apply legalText_elem_of in Hfind as [Hfirst Hslug'].
    f_equal. apply (slug_unique legalTexts); [done..|congruence].
  - exfalso. by apply (proj1 (legalText_None _ _) Hfind d Hd).
Qed.

(** X1. When no two documents of the set share a [slug], the lookup is a
    map lookup: it returns a document exactly when that document is in the
    set and carries the selected language, wherever it sits. *)
Theorem X1_unique_slugs_lookup
    (legalTexts : list LegalNotice) (language : string) (d : LegalNotice) :
  NoDup (slug <$> legalTexts) →
  (legalText legalTexts language = Some d ↔ d ∈ legalTexts ∧ slug d = language).
Proof.
  intros Hnodup. split.
  - apply legalText_elem_of.
  - intros [Hd Hslug]. by apply legalText_unique.
Qed.

Lemma X1_unique_slugs_witness :
  NoDup (slug <$> sample)
  ∧ (legalText sample "de" = Some doc_de ↔ doc_de ∈ sample ∧ slug doc_de = "de").
Proof.
  assert (Hnodup : NoDup (slug <$> sample)).
  { apply (bool_decide_unpack _). by vm_compute. }
  split; [exact Hnodup|].
  exact (X1_unique_slugs_lookup sample "de" doc_de Hnodup).
Defined.

(** X2. With pairwise distinct slugs the order of the document set does
    not matter: a reordered set resolves the same document for every
    language and renders the same view in every state. *)
Theorem X2_order_irrelevant_when_unique
    (legalTexts reordered : list LegalNotice) (st : State) :
  NoDup (slug <$> legalTexts) →
  legalTexts ≡ₚ reordered →
  legalText reordered (language st) = legalText legalTexts (language st)
  ∧ Legal reordered st = Legal legalTexts st.
Proof.
  intros Hnodup Hperm.
  assert (Hnodup' : NoDup (slug <$> reordered)) by by rewrite <- Hperm.
  assert (Hfind : legalText reordered (language st) = legalText legalTexts (language st)).
  { destruct (legalText legalTexts (language st)) as [d|] eqn:Hd.
    - apply legalText_elem_of in Hd as [Hd Hslug].
      apply legalText_unique; [done| |done]. by rewrite <- Hperm.
    - apply legalText_None. intros text Htext.
      apply (proj1 (legalText_None _ _) Hd). by rewrite Hperm. }
  split; [done|].
  unfold Legal, rendered_code. by rewrite Hfind.
Qed.

Lemma X2_order_irrelevant_witness :
  NoDup (slug <$> sample)
  ∧ sample ≡ₚ [doc_de; doc_en]
  ∧ legalText [doc_de; doc_en] (language initialState)
    = legalText sample (language initialState)
  ∧ Legal [doc_de; doc_en] initialState = Legal sample initialState.
Proof.
  assert (Hnodup : NoDup (slug <$> sample)).
  { apply (bool_decide_unpack _). by vm_compute. }
  assert (Hperm : sample ≡ₚ [doc_de; doc_en]) by apply Permutation_swap.
  split; [exact Hnodup|]. split; [exact Hperm|].
  exact (X2_order_irrelevant_when_unique sample [doc_de; doc_en] initialState
           Hnodup Hperm).
Defined.

(** X3. Documents appended to the set are consulted only when the set
    itself has no match: the lookup in [legalTexts ++ more] is the lookup
    in [legalTexts] when that finds a document, and the lookup in [more]
    otherwise. *)
Theorem X3_appended_documents_shadowed
    (legalTexts more : list LegalNotice) (language : string) :
  legalText (legalTexts ++ more) language =
  match legalText legalTexts language with
  | Some text => Some text
  | None => legalText more language
  end.
Proof.
  unfold legalText.
  induction legalTexts as [|d rest IH]; simpl; [done|].
  by destruct (String.eqb (slug d) language).
Qed.

(** ** Clicks *)

Lemma click_cases legalTexts k st :
  click legalTexts k st =
  match k with
  | 0 => setLanguage "de" st
  | 1 => setLanguage "en" st
  | _ => st
  end.
Proof. unfold click. rewrite Legal_controls. by destruct k as [|[|k]]. Qed.

Lemma click_hit legalTexts k st :
  k < 2 → language (click legalTexts k st) = language_of_index k.
Proof. rewrite click_cases. destruct k as [|[|k]]; [done..|lia]. Qed.

Lemma click_miss legalTexts k st : ¬ k < 2 → click legalTexts k st = st.
Proof. rewrite click_cases. destruct k as [|[|k]]; [lia..|done]. Qed.

Lemma reachable_LegalLanguages legalTexts st :
  reachable legalTexts st → LegalLanguages (language st).
Proof.
  induction 1 as [|st b _ _ Hb]; [by right|].
  apply Legal_control_languages in Hb. by destruct b as [[value] ? ?].
Qed.

Lemma Legal_marked legalTexts st :
  marked <$> controls (Legal legalTexts st)
  = [bool_decide (language st = "de"); bool_decide (language st = "en")].
Proof.
  rewrite Legal_controls. cbn [fmap list_fmap].
  assert (Hmark : ∀ base lang label,
    "text-primary-500" ∉ classList base →
    "text-primary-500" ∈ classList (base +:+ "text-primary-500") →
    marked (mkControl (SetLanguage lang)
              (base +:+ conditionalButtonStyles (language st) lang) label)
    = bool_decide (language st = lang)).
  { intros base lang label Hbase Happended.
    pose proof (marked_conditional base (language st) lang Hbase Happended) as Hiff.
    change (marked (mkControl (SetLanguage lang)
                      (base +:+ conditionalButtonStyles (language st) lang) label))
      with (marked (mkControl (SetLanguage lang)
                      (base +:+ conditionalButtonStyles (language st) lang) "")).
    destruct (marked _) eqn:Hm.
    - symmetry. apply bool_decide_eq_true. symmetry. by apply Hiff.
    - symmetry. apply bool_decide_eq_false. intros Heq.
      symmetry in Heq. apply Hiff in Heq. congruence. }
  rewrite !Hmark; [done|..]; apply (bool_decide_unpack _); by vm_compute.
Qed.

(** X4. In a reachable state the document shown is the first German or the
    first English document of the set: a document with any other [slug]
    is never resolved, however the controls are clicked. *)
Theorem X4_only_de_en_documents_shown
    (legalTexts : list LegalNotice) (st : State) :
  reachable legalTexts st →
  (legalText legalTexts (language st) = legalText legalTexts "de"
   ∨ legalText legalTexts (language st) = legalText legalTexts "en")
  ∧ ∀ text, legalText legalTexts (language st) = Some text →
            LegalLanguages (slug text).
Proof.
  intros Hlang%reachable_LegalLanguages. split.
  - destruct Hlang as [-> | ->]; [by left|by right].
  - intros text [_ Hslug]%legalText_elem_of. by rewrite Hslug.
Qed.

Lemma X4_only_de_en_witness :
  let docs := [mkLegalNotice "fr" (mkMDX "Bonjour"); doc_en] in
  let st := clicks docs [1; 0; 1] initialState in
  reachable docs st
  ∧ (legalText docs (language st) = legalText docs "de"
     ∨ legalText docs (language st) = legalText docs "en")
  ∧ ∀ text, legalText docs (language st) = Some text → LegalLanguages (slug text).
Proof.
  intros docs st.
  assert (Hreach : reachable docs st).
  { apply clicks_reachable. constructor. }
  split; [exact Hreach|].
  exact (X4_only_de_en_documents_shown docs st Hreach).
Defined.

(** X5. Only the last click that lands on a control counts: after any
    series of clicks the selected language is the one of the last click
    on control [0] or [1], and it is the starting language when no click
    landed on a control. *)
Theorem X5_last_click_wins
    (legalTexts : list LegalNotice) (ks : list nat) (st : State) :
  language (clicks legalTexts ks st) =
  match last (hits ks) with
  | Some k => language_of_index k
  | None => language st
  end.
Proof.
  revert st. induction ks as [|k ks IH]; intros st; [done|].
  cbn [clicks]. rewrite IH. unfold hits. rewrite filter_cons.
  destruct (decide (k < 2)) as [Hk|Hk].
  - rewrite last_cons. fold (hits ks).
    destruct (last (hits ks)); [done|]. by apply click_hit.
  - fold (hits ks). by rewrite click_miss.
Qed.

(** X6. The controls do not look at the document set: a control whose
    language has no document is still offered, a click on it selects that
    language, and the renderer is then handed the empty string. *)
Theorem X6_absent_language_selectable
    (legalTexts : list LegalNotice) (k : nat) (st : State) :
  k < 2 →
  language_of_index k ∉ (slug <$> legalTexts) →
  is_Some (controls (Legal legalTexts st) !! k)
  ∧ language (click legalTexts k st) = language_of_index k
  ∧ renderer_inputs (Legal legalTexts (click legalTexts k st)) = [JsString ""].
Proof.
  intros Hk Habsent. split_and!.
  - apply lookup_lt_is_Some. by rewrite Legal_controls.
  - by apply click_hit.
  - rewrite Legal_renderer_inputs, click_hit by done.
    by rewrite rendered_code_undefined by by apply legalText_absent.
Qed.

Lemma X6_absent_language_witness :
  0 < 2
  ∧ (language_of_index 0 ∉ (slug <$> [doc_en]))
  ∧ is_Some (controls (Legal [doc_en] initialState) !! 0)
  ∧ language (click [doc_en] 0 initialState) = language_of_index 0
  ∧ renderer_inputs (Legal [doc_en] (click [doc_en] 0 initialState)) = [JsString ""].
Proof.
  assert (Hk : 0 < 2) by lia.
  assert (Habsent : language_of_index 0 ∉ (slug <$> [doc_en])).
  { apply (bool_decide_unpack _). by vm_compute. }
  split; [exact Hk|]. split; [exact Habsent|].
  exact (X6_absent_language_selectable [doc_en] 0 initialState Hk Habsent).
Defined.

(** X7. In every reachable state exactly one of the two controls is
    marked: the German one when German is selected, the English one when
    English is selected. *)
Theorem X7_exactly_one_control_marked
    (legalTexts : list LegalNotice) (st : State) :
  reachable legalTexts st →
  (language st = "de" ∧ marked <$> controls (Legal legalTexts st) = [true; false])
  ∨ (language st = "en" ∧ marked <$> controls (Legal legalTexts st) = [false; true]).
Proof.
  intros Hlang%reachable_LegalLanguages. rewrite Legal_marked.
  destruct Hlang as [-> | ->]; [left|right]; done.
Qed.

Lemma X7_exactly_one_witness :
  let st := clicks sample [0] initialState in
  reachable sample st
  ∧ ((language st = "de" ∧ marked <$> controls (Legal sample st) = [true; false])
     ∨ (language st = "en" ∧ marked <$> controls (Legal sample st) = [false; true])).
Proof.
  intros st.
  assert (Hreach : reachable sample st).
  { apply clicks_reachable. constructor. }
  split; [exact Hreach|].
  exact (X7_exactly_one_control_marked sample st Hreach).
Defined.

(** X8. A click on a control marks that control and no other in the next
    view, from any state; and a click on a control that is already marked
    changes nothing. *)
Theorem X8_clicked_control_becomes_marked
    (legalTexts : list LegalNotice) (k : nat) (st : State) (b : Control) :
  controls (Legal legalTexts st) !! k = Some b →
  marked <$> controls (Legal legalTexts (click legalTexts k st))
  = [bool_decide (k = 0); bool_decide (k = 1)]
  ∧ (marked b = true → click legalTexts k st = st).
Proof.
  intros Hb.
  assert (Hk : k < 2).
  { apply lookup_lt_Some in Hb. by rewrite Legal_controls in Hb. }
  split.
  - rewrite Legal_marked, click_hit by done.
    destruct k as [|[|k]]; [done..|lia].
  - intros Hmarked.
    assert (Hfmap : (marked <$> controls (Legal legalTexts st)) !! k = Some true).
    { by rewrite list_lookup_fmap, Hb, <- Hmarked. }
    rewrite Legal_marked in Hfmap. rewrite click_cases.
    destruct st as [lang]. simpl in Hfmap.
    destruct k as [|[|k]]; [| |lia]; simplify_eq/=;
      match goal with H : bool_decide _ = true |- _ =>
        apply bool_decide_eq_true in H end; by subst.
Qed.

Lemma X8_clicked_control_witness :
  let b := mkControl (SetLanguage "en")
             ("text-xl transition-all hover:text-primary-500 "
                +:+ conditionalButtonStyles "en" "en") "EN" in
  controls (Legal sample initialState) !! 1 = Some b
  ∧ marked <$> controls (Legal sample (click sample 1 initialState))
    = [bool_decide (1 = 0); bool_decide (1 = 1)]
  ∧ (marked b = true → click sample 1 initialState = initialState).
Proof.
  intros b.
  assert (Hb : controls (Legal sample initialState) !! 1 = Some b) by reflexivity.
  split; [exact Hb|].
  exact (X8_clicked_control_becomes_marked sample 1 initialState b Hb).
Defined.

(** X9. The renderer only ever receives the body of a document of the set
    that carries the selected language, or the empty string: a body that
    is not empty is passed on unchanged, and no content of a document in
    another language is shown. *)
Theorem X9_content_comes_from_selected_language
    (legalTexts : list LegalNotice) (st : State) :
  (renderer_inputs (Legal legalTexts st) = [JsString ""]
   ∧ ∀ text, legalText legalTexts (language st) = Some text → code (body text) = "")
  ∨ (∃ text,
       text ∈ legalTexts
       ∧ slug text = language st
       ∧ code (body text) ≠ ""
       ∧ legalText legalTexts (language st) = Some text
       ∧ renderer_inputs (Legal legalTexts st) = [JsString (code (body text))]).
Proof.
  rewrite Legal_renderer_inputs.
  destruct (legalText legalTexts (language st)) as [text|] eqn:Hfind.
  - rewrite (rendered_code_Some _ _ _ Hfind).
    destruct (decide (code (body text) = "")) as [Hblank|Hbody].
    + left. rewrite Hblank. split; [done|]. by intros ? [= <-].
    + right. exists text.
      apply legalText_elem_of in Hfind as [Hin Hslug]. by split_and!.
  - left. rewrite (rendered_code_undefined _ _ Hfind). by split.
Qed.

(** ** The reachable states, exactly *)

(** X13. The reachable states are exactly those whose language is ['de']
    or ['en']: both languages can be selected through the controls, from
    any document set, and nothing else can. *)
Theorem X13_reachable_iff_LegalLanguages (legalTexts : list LegalNotice) (st : State) :
  reachable legalTexts st ↔ LegalLanguages (language st).
Proof.
  split; [apply reachable_LegalLanguages|].
  destruct st as [lang]. simpl.
  assert (Hclick : ∀ k, reachable legalTexts (click legalTexts k initialState)).
  { intros k. apply click_reachable. constructor. }
  intros [-> | ->].
  - exact (Hclick 0).
  - exact (Hclick 1).
Qed.
